(** * Salary prediction API: a shallow embedding of [app/] and its contract

    The request handlers of [app/main.py], the schemas of [app/schemas.py]
    and the helpers of [app/utils.py] are translated function by function.
    The relational store is a pair of row lists threaded through the
    handlers; a handler returns the store it leaves behind together with
    its outcome (a returned object, a raised [HTTPException], or an
    exception that escapes the handler).  Scores are IEEE binary64 numbers,
    as Python's [float] is. *)

From Stdlib Require Import ZArith Floats.PrimFloat.
From stdpp Require Import base option list strings pretty sorting.

Local Open Scope string_scope.
Local Open Scope Z_scope.

(** ** [app/config.py] *)

Module config.
Definition DATABASE_URL : string := "sqlite:///./salary_predictor.db".
Definition SECRET_KEY : string :=
  "your-secret-key-change-this-in-production-make-it-long-and-random".
Definition ALGORITHM : string := "HS256".
Definition ACCESS_TOKEN_EXPIRE_MINUTES : Z := 30.
End config.

(** ** Exceptions and handler outcomes *)

(** The status codes [main.py] takes from [fastapi.status]. *)
Module status.
Definition HTTP_201_CREATED : Z := 201.
Definition HTTP_400_BAD_REQUEST : Z := 400.
Definition HTTP_401_UNAUTHORIZED : Z := 401.
Definition HTTP_404_NOT_FOUND : Z := 404.
Definition HTTP_500_INTERNAL_SERVER_ERROR : Z := 500.
Definition HTTP_503_SERVICE_UNAVAILABLE : Z := 503.
End status.

(** A Python exception: its class name and [str(e)]. *)
Record Exception := mkException { exc_class : string; exc_str : string }.

(** [fastapi.HTTPException(status_code, detail, headers)]. *)
Record HTTPException := mkHTTPException {
  status_code : Z;
  detail : string;
  headers : list (string * string)
}.

(** A computation that may raise. *)
Inductive result (A : Type) : Type :=
| Ok (a : A)
| Raise (e : Exception).
Arguments Ok {A} a.
Arguments Raise {A} e.

Definition bind {A B} (r : result A) (k : A → result B) : result B :=
  match r with
  | Ok a => k a
  | Raise e => Raise e
  end.

Notation "x ←! r ; k" := (bind r (fun x => k))
  (at level 20, r at level 100, k at level 200, right associativity,
   format "x  ←!  r ;  '/' k").

(** What a request ends in:
    - the handler returned a value (serialised through the route's
      [response_model]);
    - the request body failed schema validation before the handler ran
      (the fields at fault are listed);
    - the handler raised an [HTTPException];
    - some other exception left the handler. *)
Inductive Outcome (A : Type) : Type :=
| Returned (a : A)
| Invalid (loc : list string)
| Raised (e : HTTPException)
| Unhandled (e : Exception).
Arguments Returned {A} a.
Arguments Invalid {A} loc.
Arguments Raised {A} e.
Arguments Unhandled {A} e.

(** The error outcomes, by the name the contract gives them. *)
Definition DuplicateUsername : HTTPException :=
  mkHTTPException status.HTTP_400_BAD_REQUEST "Username already registered" [].
Definition DuplicateEmail : HTTPException :=
  mkHTTPException status.HTTP_400_BAD_REQUEST "Email already registered" [].
Definition AuthenticationFailed : HTTPException :=
  mkHTTPException status.HTTP_401_UNAUTHORIZED "Incorrect username or password"
    [("WWW-Authenticate", "Bearer")].
Definition ModelUnavailable : HTTPException :=
  mkHTTPException status.HTTP_503_SERVICE_UNAVAILABLE "Model not loaded" [].
Definition NotFound : HTTPException :=
  mkHTTPException status.HTTP_404_NOT_FOUND "Prediction not found" [].
Definition PredictionError (e : Exception) : HTTPException :=
  mkHTTPException status.HTTP_500_INTERNAL_SERVER_ERROR
    ("Prediction error: " ++ exc_str e) [].

(** ** The rows ([app/models.py]) *)

(** Modelled from the spec: [app/models.py] is not among the sources.  A
    [User] row has a numeric id assigned on creation, a unique username, a
    unique email, the password hash and a creation timestamp.  [User.new] is
    the object as [User(username=..., email=..., hashed_password=...)]
    builds it, before the store has assigned [id] and [created_at]. *)
Module User.
Record new := mk_new {
  new_username : string;
  new_email : string;
  new_hashed_password : string
}.
Record t := mk {
  id : Z;
  username : string;
  email : string;
  hashed_password : string;
  created_at : Z
}.
Definition stored (n : new) (id created_at : Z) : t :=
  mk id (new_username n) (new_email n) (new_hashed_password n) created_at.
End User.

(** Modelled from the spec: [app/models.py] is not among the sources.  A
    [Prediction] row has a numeric id, the id of the user who owns it, the
    three input scores, the predicted output and a creation timestamp.
    [Prediction.new] is the object as [Prediction(user_id=..., ...)] builds
    it. *)
Module Prediction.
Record new := mk_new {
  new_user_id : Z;
  new_test_score : float;
  new_interview_score : float;
  new_years_experience : float;
  new_predicted_salary : float
}.
Record t := mk {
  id : Z;
  user_id : Z;
  test_score : float;
  interview_score : float;
  years_experience : float;
  predicted_salary : float;
  created_at : Z
}.
Definition stored (n : new) (id created_at : Z) : t :=
  mk id (new_user_id n) (new_test_score n) (new_interview_score n)
     (new_years_experience n) (new_predicted_salary n) created_at.
End Prediction.

(** ** The store ([app/database.py]) *)

(** The two tables, rows in insertion order. *)
Record Session := mkSession {
  users : list User.t;
  predictions : list Prediction.t
}.

(** Modelled from the spec: ids are unique and assigned on creation; the
    store hands out one more than the largest id in the table. *)
Definition next_id (ids : list Z) : Z := 1 + foldr Z.max 0 ids.

(** [db.query(M).filter(P).first()]. *)
Definition query_first {A} (P : A → Prop) `{∀ x, Decision (P x)}
    (table : list A) : option A :=
  head (filter P table).

Definition IntegrityError (column : string) : Exception :=
  mkException "IntegrityError" ("UNIQUE constraint failed: " ++ column).

(** Modelled from the spec: username and email are unique at the storage
    layer, so the insert is refused when either is already in the table;
    otherwise the row receives its id and its creation timestamp.  This is
    [db.add(new_user); db.commit(); db.refresh(new_user)]. *)
Definition add_user (db : Session) (n : User.new) (now : Z)
    : result (Session * User.t) :=
  if decide (Exists (λ u, User.username u = User.new_username n) (users db))
  then Raise (IntegrityError "users.username")
  else if decide (Exists (λ u, User.email u = User.new_email n) (users db))
  then Raise (IntegrityError "users.email")
  else
    let row := User.stored n (next_id (User.id <$> users db)) now in
    Ok (mkSession (users db ++ [row]) (predictions db), row).

(** Modelled from the spec: the row receives its id and its creation
    timestamp from the store.  This is
    [db.add(new_prediction); db.commit(); db.refresh(new_prediction)]. *)
Definition add_prediction (db : Session) (n : Prediction.new) (now : Z)
    : Session * Prediction.t :=
  let row := Prediction.stored n (next_id (Prediction.id <$> predictions db)) now in
  (mkSession (users db) (predictions db ++ [row]), row).

(** ** [app/utils.py] *)

(** The unpickled model object: all the service uses of it is
    [model.predict], from a 2D array of rows to one output per row, which
    may raise. *)
Record Model := mkModel {
  predict : list (list float) → result (list float)
}.

(** [load_model()].  [artifact] is what lies at [MODEL_PATH]: [None] when the
    file does not exist, otherwise what [pickle.load] makes of it. *)
Definition load_model (artifact : option (result Model)) : option Model :=
  match artifact with
  | None => None
  | Some (Ok model) => Some model
  | Some (Raise _) => None
  end.

(** [prepare_features]: one row, in the order the model was trained with. *)
Definition prepare_features (test_score interview_score years_experience : float)
    : list (list float) :=
  let features := [test_score; interview_score; years_experience] in
  [features].

(** ** [app/schemas.py] *)

(** [Field(..., ge=lo, le=hi)] on a float. *)
Definition Field_ge_le (lo hi x : float) : bool :=
  PrimFloat.leb lo x && PrimFloat.leb x hi.

Module PredictionInput.
Record t := mk {
  test_score : float;
  interview_score : float;
  years_experience : float
}.

(** The fields that break their constraints, in declaration order. *)
Definition errors (body : t) : list string :=
  (if Field_ge_le 0 100 (test_score body) then [] else ["test_score"]) ++
  (if Field_ge_le 0 100 (interview_score body) then [] else ["interview_score"]) ++
  (if Field_ge_le 0 50 (years_experience body) then [] else ["years_experience"]).

(** Validation of a request body whose three numbers have been read. *)
Definition validate (body : t) : list string + t :=
  match errors body with
  | [] => inr body
  | loc => inl loc
  end.
End PredictionInput.

Module PredictionResponse.
Record t := mk {
  id : Z;
  test_score : float;
  interview_score : float;
  years_experience : float;
  predicted_salary : float;
  created_at : Z
}.
(** [from_attributes = True]: each field is read off the row. *)
Definition from_attributes (p : Prediction.t) : t :=
  mk (Prediction.id p) (Prediction.test_score p) (Prediction.interview_score p)
     (Prediction.years_experience p) (Prediction.predicted_salary p)
     (Prediction.created_at p).
End PredictionResponse.

Module UserCreate.
Record t := mk {
  username : string;
  email : string;
  password : string
}.
End UserCreate.

Module UserResponse.
Record t := mk {
  id : Z;
  username : string;
  email : string;
  created_at : Z
}.
Definition from_attributes (u : User.t) : t :=
  mk (User.id u) (User.username u) (User.email u) (User.created_at u).
End UserResponse.

(** Serialisation of a handler's return value through [response_model]. *)
Definition respond {A B} (response_model : A → B) (o : Outcome A) : Outcome B :=
  match o with
  | Returned a => Returned (response_model a)
  | Invalid loc => Invalid loc
  | Raised e => Raised e
  | Unhandled e => Unhandled e
  end.

(** ** [app/main.py]: the model loaded at import time *)

(** [try: model = load_model() except Exception: model = None]. *)
Definition startup_model (artifact : option (result Model)) : option Model :=
  load_model artifact.

(** ** [app/main.py]: [POST /predict] *)

(** [seq[0]] *)
Definition getitem0 (ys : list float) : result float :=
  match ys with
  | y :: _ => Ok y
  | [] => Raise (mkException "IndexError" "index 0 is out of bounds for axis 0 with size 0")
  end.

Definition predict_salary (model : option Model) (input_data : PredictionInput.t)
    (current_user : User.t) (now : Z) (db : Session)
    : Session * Outcome Prediction.t :=
  match model with
  | None => (db, Raised ModelUnavailable)
  | Some model =>
    let attempt :=
      let features :=
        prepare_features (PredictionInput.test_score input_data)
                         (PredictionInput.interview_score input_data)
                         (PredictionInput.years_experience input_data) in
      ys ←! predict model features;
      predicted_salary ←! getitem0 ys;
      let new_prediction :=
        Prediction.mk_new (User.id current_user)
                          (PredictionInput.test_score input_data)
                          (PredictionInput.interview_score input_data)
                          (PredictionInput.years_experience input_data)
                          predicted_salary in
      Ok (add_prediction db new_prediction now) in
    match attempt with
    | Ok (db', new_prediction) => (db', Returned new_prediction)
    | Raise e => (db, Raised (PredictionError e))
    end
  end.

(** The route: the body is validated against [PredictionInput] before the
    handler runs, and the handler's row goes out as a [PredictionResponse]. *)
Definition post_predict (model : option Model) (body : PredictionInput.t)
    (current_user : User.t) (now : Z) (db : Session)
    : Session * Outcome PredictionResponse.t :=
  match PredictionInput.validate body with
  | inl loc => (db, Invalid loc)
  | inr input_data =>
    let '(db', o) := predict_salary model input_data current_user now db in
    (db', respond PredictionResponse.from_attributes o)
  end.

(** ** [app/main.py]: [GET /predictions] and [GET /predictions/{id}] *)

(** [ORDER BY created_at DESC]: the later row first. *)
Definition created_at_desc (p q : Prediction.t) : Prop :=
  Prediction.created_at q ≤ Prediction.created_at p.

Global Instance created_at_desc_dec p q : Decision (created_at_desc p q).
Proof. unfold created_at_desc. apply _. Defined.

Definition get_predictions (current_user : User.t) (db : Session)
    : list Prediction.t :=
  merge_sort created_at_desc
    (filter (λ p, Prediction.user_id p = User.id current_user) (predictions db)).

Definition list_predictions (current_user : User.t) (db : Session)
    : Outcome (list PredictionResponse.t) :=
  Returned (PredictionResponse.from_attributes <$> get_predictions current_user db).

Definition get_prediction (prediction_id : Z) (current_user : User.t)
    (db : Session) : Outcome Prediction.t :=
  let prediction :=
    query_first (λ p, Prediction.id p = prediction_id
                      ∧ Prediction.user_id p = User.id current_user)
                (predictions db) in
  match prediction with
  | None => Raised NotFound
  | Some prediction => Returned prediction
  end.

Definition get_prediction_route (prediction_id : Z) (current_user : User.t)
    (db : Session) : Outcome PredictionResponse.t :=
  respond PredictionResponse.from_attributes
    (get_prediction prediction_id current_user db).

(** ** [app/main.py]: [GET /me] *)

Definition user_info (current_user : User.t) : User.t := current_user.

Definition get_me (current_user : User.t) : Outcome UserResponse.t :=
  respond UserResponse.from_attributes (Returned (user_info current_user)).

(** ** [app/auth.py] *)

(** Modelled from the spec: [app/auth.py] is not among the sources.  The
    password hasher and the token signature are opaque primitives:
    [hash_password] is salted per call, [verify_password] checks a plaintext
    against a stored hash, and [sign] is the keyed signature over a token's
    claims. *)
Class Auth := {
  hash_password : string → string → string;
  verify_password : string → string → bool;
  sign : string → string → Z → string
}.

(** Modelled from the spec: a token is a signed, time-bounded claim of a
    username; it embeds the claim and an absolute expiry instant (seconds). *)
Module JWT.
Record t := mk {
  sub : string;
  exp : Z;
  signature : string
}.
End JWT.

Module Token.
Record t := mk {
  access_token : JWT.t;
  token_type : string
}.
End Token.

(** [timedelta(minutes=m)], in seconds. *)
Definition timedelta_minutes (m : Z) : Z := 60 * m.

Section auth.
Context `{Auth}.

(** Modelled from the spec: issuance embeds the claim and the absolute
    expiry instant [now + expires_delta], and signs both with the
    process-wide secret. *)
Definition create_access_token (sub : string) (expires_delta now : Z) : JWT.t :=
  let exp := now + expires_delta in
  JWT.mk sub exp (sign config.SECRET_KEY sub exp).

(** Modelled from the spec: verification validates the signature against
    the process-wide secret, rejects the token if the signature is invalid
    or the embedded expiry has passed, and otherwise returns the embedded
    username claim. *)
Definition verify_token (token : JWT.t) (now : Z) : option string :=
  if decide (JWT.signature token
             = sign config.SECRET_KEY (JWT.sub token) (JWT.exp token))
  then if decide (now < JWT.exp token) then Some (JWT.sub token) else None
  else None.

(** Modelled from the spec: looks the user up by username; there is no
    user to return when the username does not exist or the password does
    not verify. *)
Definition authenticate_user (db : Session) (username password : string)
    : option User.t :=
  match query_first (λ u, User.username u = username) (users db) with
  | None => None
  | Some user =>
    if verify_password password (User.hashed_password user)
    then Some user else None
  end.

(** ** [app/main.py]: [POST /register] *)

(** The two look-ups that precede the insert. *)
Definition register_checks (user : UserCreate.t) (db : Session)
    : option HTTPException :=
  match query_first (λ u, User.username u = UserCreate.username user) (users db) with
  | Some _ => Some DuplicateUsername
  | None =>
    match query_first (λ u, User.email u = UserCreate.email user) (users db) with
    | Some _ => Some DuplicateEmail
    | None => None
    end
  end.

(** Hashing, [db.add], [db.commit], [db.refresh], [return new_user].  The
    handler has no [try] around them. *)
Definition register_insert (user : UserCreate.t) (salt : string) (now : Z)
    (db : Session) : Session * Outcome User.t :=
  let hashed_password := hash_password salt (UserCreate.password user) in
  let new_user :=
    User.mk_new (UserCreate.username user) (UserCreate.email user)
                hashed_password in
  match add_user db new_user now with
  | Ok (db', new_user) => (db', Returned new_user)
  | Raise e => (db, Unhandled e)
  end.

(** The handler when the store may move between its look-ups and its
    insert: [seen] is the store the look-ups read, [db] the store the
    insert meets (the two differ when another request commits in
    between). *)
Definition register_between (user : UserCreate.t) (salt : string) (now : Z)
    (seen db : Session) : Session * Outcome User.t :=
  match register_checks user seen with
  | Some e => (db, Raised e)
  | None => register_insert user salt now db
  end.

(** The handler on its own: nothing happens between look-ups and insert. *)
Definition register (user : UserCreate.t) (salt : string) (now : Z)
    (db : Session) : Session * Outcome User.t :=
  register_between user salt now db db.

Definition post_register (user : UserCreate.t) (salt : string) (now : Z)
    (db : Session) : Session * Outcome UserResponse.t :=
  let '(db', o) := register user salt now db in
  (db', respond UserResponse.from_attributes o).

(** ** [app/main.py]: [POST /login] *)

Definition login (username password : string) (now : Z) (db : Session)
    : Outcome Token.t :=
  match authenticate_user db username password with
  | None => Raised AuthenticationFailed
  | Some user =>
    let access_token_expires :=
      timedelta_minutes config.ACCESS_TOKEN_EXPIRE_MINUTES in
    let access_token :=
      create_access_token (User.username user) access_token_expires now in
    Returned (Token.mk access_token "bearer")
  end.
End auth.

(** ** Specification predicates and sample data *)

(** What the guarded block of [predict_salary] computes before it stores
    anything: the model's first output on the prepared feature row. *)
Definition model_output (model : Model) (input_data : PredictionInput.t)
    : result float :=
  ys ←! predict model
         (prepare_features (PredictionInput.test_score input_data)
                           (PredictionInput.interview_score input_data)
                           (PredictionInput.years_experience input_data));
  getitem0 ys.

(** A linear model, for the examples below. *)
Definition linear_model : Model :=
  mkModel (λ X,
    Ok ((λ row,
          match row with
          | [a; b; c] => (1000 * a + 500 * b + 2000 * c)%float
          | _ => nan
          end) <$> X)).

Definition alice : User.t := User.mk 1 "alice" "alice@example.com" "$2b$12$hash-a" 10.
Definition bob : User.t := User.mk 2 "bob" "bob@example.com" "$2b$12$hash-b" 20.

Definition input_85_90_3 : PredictionInput.t := PredictionInput.mk 85 90 3.

(** A model whose [predict] raises with the given message. *)
Definition failing_model (class_name message : string) : Model :=
  mkModel (λ _, Raise (mkException class_name message)).

(** [lo <= x <= hi] on binary64 numbers (false when [x] is not a number). *)
Definition float_between (lo hi x : float) : Prop :=
  PrimFloat.leb lo x = true ∧ PrimFloat.leb x hi = true.

Definition within_bounds (body : PredictionInput.t) : Prop :=
  float_between 0 100 (PredictionInput.test_score body)
  ∧ float_between 0 100 (PredictionInput.interview_score body)
  ∧ float_between 0 50 (PredictionInput.years_experience body).

(** The predicate of the look-up in [get_prediction]. *)
Definition owned_with_id (prediction_id : Z) (current_user : User.t)
    (p : Prediction.t) : Prop :=
  Prediction.id p = prediction_id ∧ Prediction.user_id p = User.id current_user.

(** A store with three predictions of alice and one of bob, inserted out of
    creation order. *)
Definition sample_db : Session :=
  mkSession [alice; bob]
    [Prediction.mk 1 1 85 90 3 136000 300;
     Prediction.mk 2 2 70 60 1 102000 310;
     Prediction.mk 3 1 50 50 0 75000 500;
     Prediction.mk 4 1 60 65 2 96500 400].

(** A hasher and a signer to run the handlers with: the hash is the salt, a
    separator and the plaintext; the signature is the key and the claims. *)
Definition toy_verify (password hashed : string) : bool :=
  let n := String.length password in
  let m := String.length hashed in
  String.eqb (String.substring (m - S n) (S n) hashed) ("$" ++ password).

Definition toy_auth : Auth := {|
  hash_password salt password := salt ++ "$" ++ password;
  verify_password := toy_verify;
  sign key sub exp := key ++ "." ++ sub ++ "." ++ pretty exp
|}.

Definition carol : UserCreate.t :=
  UserCreate.mk "carol" "carol@example.com" "s3cret!".

Definition two_users : Session := mkSession [alice; bob] [].

(** The same user, the same store, with other password hashes. *)
Definition rehash_user (f : string → string) (u : User.t) : User.t :=
  User.mk (User.id u) (User.username u) (User.email u)
          (f (User.hashed_password u)) (User.created_at u).

Definition rehash (f : string → string) (db : Session) : Session :=
  mkSession (rehash_user f <$> users db) (predictions db).

(** ** [app/schemas.py]: the registration body *)

(** [Field(..., min_length=lo, max_length=hi)] on a [str]; the length is
    counted in characters. *)
Definition Field_length (min_length : nat) (max_length : option nat)
    (s : string) : bool :=
  (min_length <=? String.length s)%nat
  && match max_length with
     | Some hi => (String.length s <=? hi)%nat
     | None => true
     end.

(** The fields of a [UserCreate] body that break their constraints, in
    declaration order.  [EmailStr] is the external address validator: it
    refuses an address or returns it normalised. *)
Definition UserCreate_errors (EmailStr : string → option string)
    (body : UserCreate.t) : list string :=
  (if Field_length 3 (Some 50%nat) (UserCreate.username body)
   then [] else ["username"]) ++
  (match EmailStr (UserCreate.email body) with
   | Some _ => []
   | None => ["email"]
   end) ++
  (if Field_length 6 None (UserCreate.password body) then [] else ["password"]).

(** Validation of a registration body: the validated object carries the
    address as [EmailStr] returned it. *)
Definition UserCreate_validate (EmailStr : string → option string)
    (body : UserCreate.t) : list string + UserCreate.t :=
  match UserCreate_errors EmailStr body, EmailStr (UserCreate.email body) with
  | [], Some email =>
    inr (UserCreate.mk (UserCreate.username body) email (UserCreate.password body))
  | loc, _ => inl loc
  end.


(** An address validator to run the route with: an address needs an [@]
    and is returned as it is. *)
Definition toy_EmailStr (s : string) : option string :=
  match String.index 0 "@" s with
  | Some _ => Some s
  | None => None
  end.

(** * Properties *)

(** ** Look-ups and ids *)

Section query_first.
Context {A} (P : A → Prop) `{∀ x, Decision (P x)}.

Lemma query_first_Some table x :
  query_first P table = Some x → x ∈ table ∧ P x.
Proof.
  unfold query_first. intros Hx.
  apply head_Some_elem_of, list_elem_of_filter in Hx. tauto.
Qed.

Lemma query_first_None table :
  query_first P table = None ↔ ∀ x, x ∈ table → ¬ P x.
Proof.
  unfold query_first. rewrite head_None. split.
  - intros Hnil x Hin HP. by eapply filter_nil_not_elem_of.
  - intros Hno. induction table as [|y table IH]; [done|].
    rewrite filter_cons_False by (apply Hno; left).
    apply IH. intros x Hin. apply Hno. by right.
Qed.

Lemma query_first_is_Some table :
  is_Some (query_first P table) ↔ ∃ x, x ∈ table ∧ P x.
Proof.
  split.
  - intros [x Hx]. exists x. by apply query_first_Some.
  - intros (x & Hin & HP).
    destruct (query_first P table) eqn:E; [by eexists|].
    rewrite query_first_None in E. by destruct (E x).
Qed.
End query_first.

Lemma next_id_above (ids : list Z) i : i ∈ ids → i < next_id ids.
Proof.
  unfold next_id. induction ids as [|j ids IH]; simpl.
  - by intros ?%elem_of_nil.
  - intros [->|Hin]%elem_of_cons; [lia|]. specialize (IH Hin). lia.
Qed.

Lemma next_id_fresh (ids : list Z) : next_id ids ∉ ids.
Proof. intros Hin%next_id_above. lia. Qed.

(** ** [POST /predict] *)

Lemma predict_salary_loaded model input_data current_user now db :
  predict_salary (Some model) input_data current_user now db =
  match model_output model input_data with
  | Ok y =>
    let row :=
      Prediction.mk (next_id (Prediction.id <$> predictions db))
                    (User.id current_user)
                    (PredictionInput.test_score input_data)
                    (PredictionInput.interview_score input_data)
                    (PredictionInput.years_experience input_data)
                    y now in
    (mkSession (users db) (predictions db ++ [row]), Returned row)
  | Raise e => (db, Raised (PredictionError e))
  end.
Proof.
  unfold predict_salary, model_output, bind.
  destruct (predict model _) as [[|y ys]|e]; reflexivity.
Qed.

Example predict_85_90_3 :
  predict_salary (Some linear_model) input_85_90_3 alice 100 (mkSession [alice] []) =
  (mkSession [alice] [Prediction.mk 1 1 85 90 3 136000 100],
   Returned (Prediction.mk 1 1 85 90 3 136000 100)).
Proof. reflexivity. Qed.

(** C1: with a model loaded, [predict_salary] returns a record exactly when
    the model produces an output [y] for the feature row
    [[test_score; interview_score; years_experience]]; that record carries
    the three inputs as given and [y] as its predicted salary, belongs to
    the authenticated user, and is the one row appended to the store.  The
    response of the route shows the same three inputs and the same
    predicted salary. *)
Theorem predict_salary_stores_inputs_and_model_output
    (model : Model) (input_data : PredictionInput.t) (current_user : User.t)
    (now : Z) (db db' : Session) (row : Prediction.t) :
  (predict_salary (Some model) input_data current_user now db = (db', Returned row)
   ↔ ∃ y ys,
       predict model [[PredictionInput.test_score input_data;
                       PredictionInput.interview_score input_data;
                       PredictionInput.years_experience input_data]]
         = Ok (y :: ys)
       ∧ Prediction.test_score row = PredictionInput.test_score input_data
       ∧ Prediction.interview_score row = PredictionInput.interview_score input_data
       ∧ Prediction.years_experience row = PredictionInput.years_experience input_data
       ∧ Prediction.predicted_salary row = y
       ∧ Prediction.user_id row = User.id current_user
       ∧ Prediction.id row = next_id (Prediction.id <$> predictions db)
       ∧ Prediction.created_at row = now
       ∧ db' = mkSession (users db) (predictions db ++ [row]))
  ∧ (predict_salary (Some model) input_data current_user now db = (db', Returned row) →
     PredictionInput.errors input_data = [] →
     post_predict (Some model) input_data current_user now db
     = (db', Returned (PredictionResponse.mk
                         (next_id (Prediction.id <$> predictions db))
                         (PredictionInput.test_score input_data)
                         (PredictionInput.interview_score input_data)
                         (PredictionInput.years_experience input_data)
                         (Prediction.predicted_salary row)
                         now))).
Proof.
  assert (predict_salary (Some model) input_data current_user now db
            = (db', Returned row)
          ↔ ∃ y ys,
       predict model [[PredictionInput.test_score input_data;
                       PredictionInput.interview_score input_data;
                       PredictionInput.years_experience input_data]]
         = Ok (y :: ys)
       ∧ Prediction.test_score row = PredictionInput.test_score input_data
       ∧ Prediction.interview_score row = PredictionInput.interview_score input_data
       ∧ Prediction.years_experience row = PredictionInput.years_experience input_data
       ∧ Prediction.predicted_salary row = y
       ∧ Prediction.user_id row = User.id current_user
       ∧ Prediction.id row = next_id (Prediction.id <$> predictions db)
       ∧ Prediction.created_at row = now
       ∧ db' = mkSession (users db) (predictions db ++ [row])) as Hiff.
  { rewrite predict_salary_loaded. unfold model_output, prepare_features, bind.
    destruct (predict model _) as [[|y ys]|e]; simpl; split.
    - discriminate.
    - intros (? & ? & [=] & _).
    - intros [= <- <-]. exists y, ys. by repeat split.
    - intros (y' & ys' & [= <- <-] & Hts & His & Hye & Hy & Hu & Hid & Hnow & ->).
      destruct row; simpl in *; by subst.
    - discriminate.
    - intros (? & ? & [=] & _). }
  split; [exact Hiff|].
  intros Hrow Hvalid.
  destruct Hiff as [Hfields _].
  destruct (Hfields Hrow) as (y & ys & _ & Hts & His & Hye & _ & _ & Hid & Hnow & _).
  unfold post_predict, PredictionInput.validate. rewrite Hvalid, Hrow. simpl.
  unfold PredictionResponse.from_attributes.
  by rewrite Hts, His, Hye, Hid, Hnow.
Qed.

Lemma predict_salary_stores_inputs_and_model_output_witness :
  predict_salary (Some linear_model) input_85_90_3 alice 100 two_users
    = (mkSession [alice; bob] [Prediction.mk 1 1 85 90 3 136000 100],
       Returned (Prediction.mk 1 1 85 90 3 136000 100))
  ∧ post_predict (Some linear_model) input_85_90_3 alice 100 two_users
    = (mkSession [alice; bob] [Prediction.mk 1 1 85 90 3 136000 100],
       Returned (PredictionResponse.mk 1 85 90 3 136000 100)).
Proof.
  destruct (predict_salary_stores_inputs_and_model_output linear_model
              input_85_90_3 alice 100 two_users
              (mkSession [alice; bob] [Prediction.mk 1 1 85 90 3 136000 100])
              (Prediction.mk 1 1 85 90 3 136000 100)) as [[_ Hrow] Hroute].
  assert (predict_salary (Some linear_model) input_85_90_3 alice 100 two_users
          = (mkSession [alice; bob] [Prediction.mk 1 1 85 90 3 136000 100],
             Returned (Prediction.mk 1 1 85 90 3 136000 100))) as Hreturned.
  { apply Hrow. exists 136000%float, []. repeat split; reflexivity. }
  split; [exact Hreturned|].
  apply Hroute; [exact Hreturned|reflexivity].
Defined.

(** C3: when the model artifact was absent or failed to load at start-up,
    every [predict_salary] call fails with [ModelUnavailable] (status 503)
    and leaves the store as it was. *)
Theorem predict_without_model_is_unavailable
    (artifact : option (result Model)) (input_data : PredictionInput.t)
    (current_user : User.t) (now : Z) (db : Session) :
  artifact = None ∨ (∃ e, artifact = Some (Raise e)) →
  predict_salary (startup_model artifact) input_data current_user now db
    = (db, Raised ModelUnavailable)
  ∧ post_predict (startup_model artifact) input_data current_user now db
    = (db, match PredictionInput.validate input_data with
           | inl loc => Invalid loc
           | inr _ => Raised ModelUnavailable
           end)
  ∧ status_code ModelUnavailable = 503.
Proof.
  intros Hart.
  assert (startup_model artifact = None) as ->.
  { by destruct Hart as [->|[e ->]]. }
  unfold post_predict. by destruct (PredictionInput.validate _).
Qed.

Lemma predict_without_model_is_unavailable_witness :
  predict_salary (startup_model None) input_85_90_3 alice 100 (mkSession [alice] [])
    = (mkSession [alice] [], Raised ModelUnavailable)
  ∧ post_predict (startup_model None) input_85_90_3 alice 100 (mkSession [alice] [])
    = (mkSession [alice] [], Raised ModelUnavailable)
  ∧ status_code ModelUnavailable = 503.
Proof.
  exact (predict_without_model_is_unavailable None input_85_90_3 alice 100
           (mkSession [alice] []) (or_introl eq_refl)).
Defined.

(** The guarded block never lets an exception out of the handler. *)
Lemma predict_salary_never_unhandled model input_data current_user now db e :
  (predict_salary model input_data current_user now db).2 ≠ Unhandled e.
Proof.
  destruct model as [model|]; [|done].
  rewrite predict_salary_loaded. by destruct (model_output model input_data).
Qed.

(** C8, as the handler has it: with a model loaded, an exception [e] raised
    while the features are prepared or the model is invoked is caught; the
    request ends in an [HTTPException] of status 500 whose detail is the text
    "Prediction error: " followed by [str(e)], no exception leaves the
    handler, and the store is left as it was. *)
Theorem predict_exception_is_caught_and_reported
    (model : Model) (input_data : PredictionInput.t) (current_user : User.t)
    (now : Z) (db : Session) :
  (∀ e, model_output model input_data = Raise e →
     predict_salary (Some model) input_data current_user now db
       = (db, Raised (mkHTTPException 500 ("Prediction error: " ++ exc_str e) [])))
  ∧ (∀ e, (predict_salary (Some model) input_data current_user now db).2
           ≠ Unhandled e).
Proof.
  split.
  - intros e He. rewrite predict_salary_loaded, He. reflexivity.
  - intros e. apply predict_salary_never_unhandled.
Qed.

Lemma predict_exception_is_caught_and_reported_witness :
  predict_salary (Some (failing_model "ValueError" "X has 3 features, expected 4"))
                 input_85_90_3 alice 100 two_users
  = (two_users,
     Raised (mkHTTPException 500
               "Prediction error: X has 3 features, expected 4" [])).
Proof.
  exact (proj1 (predict_exception_is_caught_and_reported
                  (failing_model "ValueError" "X has 3 features, expected 4")
                  input_85_90_3 alice 100 two_users)
               (mkException "ValueError" "X has 3 features, expected 4")
               eq_refl).
Defined.

(** C8, as stated, fails: the response is not generic.  Two failures of the
    model that differ only in their message reach the caller as two
    different responses, each spelling the message out. *)
Lemma predict_error_detail_carries_exception_text :
  predict_salary (Some (failing_model "OSError" "cannot read /srv/secrets/db.key"))
                 input_85_90_3 alice 100 (mkSession [alice] [])
    = (mkSession [alice] [],
       Raised (mkHTTPException 500
                 "Prediction error: cannot read /srv/secrets/db.key" []))
  ∧ predict_salary (Some (failing_model "OSError" "cannot read /srv/secrets/db.key"))
                   input_85_90_3 alice 100 (mkSession [alice] [])
    ≠ predict_salary (Some (failing_model "OSError" "out of memory"))
                     input_85_90_3 alice 100 (mkSession [alice] []).
Proof. split; [reflexivity|discriminate]. Qed.

(** ** Validation of the prediction inputs *)

Lemma Field_ge_le_true lo hi x : Field_ge_le lo hi x = true ↔ float_between lo hi x.
Proof. unfold Field_ge_le, float_between. by rewrite andb_true_iff. Qed.

Lemma errors_nil_iff body : PredictionInput.errors body = [] ↔ within_bounds body.
Proof.
  unfold PredictionInput.errors, within_bounds.
  rewrite <- !Field_ge_le_true.
  destruct (Field_ge_le 0 100 (PredictionInput.test_score body)),
           (Field_ge_le 0 100 (PredictionInput.interview_score body)),
           (Field_ge_le 0 50 (PredictionInput.years_experience body));
    simpl; split; try done; intros (? & ? & ?); done.
Qed.

Example bounds_are_inclusive :
  PredictionInput.validate (PredictionInput.mk 0 100 50)
    = inr (PredictionInput.mk 0 100 50)
  ∧ PredictionInput.validate (PredictionInput.mk 100 0 0)
    = inr (PredictionInput.mk 100 0 0).
Proof. split; reflexivity. Qed.

Example out_of_bounds_are_listed :
  PredictionInput.validate (PredictionInput.mk 100.5 (-1) 50.5)
    = inl ["test_score"; "interview_score"; "years_experience"]
  ∧ PredictionInput.validate (PredictionInput.mk 85 90 51) = inl ["years_experience"]
  ∧ PredictionInput.validate (PredictionInput.mk nan 90 3) = inl ["test_score"]
  ∧ PredictionInput.validate (PredictionInput.mk 85 infinity 3) = inl ["interview_score"].
Proof. repeat split; reflexivity. Qed.

(** C10: the three inputs pass validation exactly when [test_score] and
    [interview_score] lie in [0, 100] and [years_experience] lies in [0, 50];
    a body outside these bounds ends the request as a validation error that
    names the fields at fault, whatever the model, with the store unchanged
    (the handler does not run); a body within them is handed to the
    handler as it is. *)
Theorem predict_inputs_validated_before_handler
    (model : option Model) (body : PredictionInput.t) (current_user : User.t)
    (now : Z) (db : Session) :
  (PredictionInput.validate body = inr body ↔ within_bounds body)
  ∧ (¬ within_bounds body →
       PredictionInput.errors body ≠ []
       ∧ post_predict model body current_user now db
         = (db, Invalid (PredictionInput.errors body)))
  ∧ (within_bounds body →
       post_predict model body current_user now db
       = ((predict_salary model body current_user now db).1,
          respond PredictionResponse.from_attributes
            (predict_salary model body current_user now db).2)).
Proof.
  unfold post_predict, PredictionInput.validate.
  rewrite <- errors_nil_iff.
  destruct (PredictionInput.errors body) as [|f fs] eqn:E.
  - split; [done|]. split; [done|]. intros _.
    by destruct (predict_salary model body current_user now db).
  - split; [split; discriminate|]. split; [done|discriminate].
Qed.

Lemma predict_inputs_validated_before_handler_witness :
  PredictionInput.errors (PredictionInput.mk 85 90 51) ≠ []
  ∧ post_predict (Some linear_model) (PredictionInput.mk 85 90 51) alice 100 two_users
    = (two_users, Invalid ["years_experience"]).
Proof.
  destruct (predict_inputs_validated_before_handler (Some linear_model)
              (PredictionInput.mk 85 90 51) alice 100 two_users)
    as (_ & Hrejected & _).
  apply Hrejected. intros (_ & _ & _ & Hle). discriminate Hle.
Defined.

(** ** [GET /predictions] and [GET /predictions/{id}] *)

Global Instance created_at_desc_total : Total created_at_desc.
Proof. intros p q. unfold created_at_desc. lia. Qed.

Global Instance created_at_desc_trans : Transitive created_at_desc.
Proof. intros p q r. unfold created_at_desc. lia. Qed.

Example alice_predictions_latest_first :
  Prediction.id <$> get_predictions alice sample_db = [3; 4; 1].
Proof. reflexivity. Qed.

Example alice_cannot_read_bobs_prediction :
  get_prediction 2 alice sample_db = Raised NotFound
  ∧ get_prediction 7 alice sample_db = Raised NotFound
  ∧ get_prediction 2 bob sample_db = Returned (Prediction.mk 2 2 70 60 1 102000 310).
Proof. repeat split; reflexivity. Qed.

(** Rows of a table whose key column has no duplicate are told apart by
    their key. *)
Lemma NoDup_fmap_same_key {A K} (key : A → K) (table : list A) x y :
  NoDup (key <$> table) → x ∈ table → y ∈ table → key x = key y → x = y.
Proof.
  induction table as [|z table IH]; simpl.
  - by intros _ ?%elem_of_nil.
  - intros [Hz Hnd]%NoDup_cons [->|Hx]%elem_of_cons [->|Hy]%elem_of_cons Hk.
    + done.
    + destruct Hz. rewrite Hk. by apply list_elem_of_fmap_2.
    + destruct Hz. rewrite <- Hk. by apply list_elem_of_fmap_2.
    + by apply IH.
Qed.

(** The store keeps prediction ids unique. *)
Lemma add_prediction_ids_NoDup db n now :
  NoDup (Prediction.id <$> predictions db) →
  NoDup (Prediction.id <$> predictions (add_prediction db n now).1).
Proof.
  intros Hnd. simpl. rewrite fmap_app. apply NoDup_app. split; [done|].
  split; [|apply NoDup_singleton].
  intros i Hi ->%list_elem_of_singleton. by apply next_id_fresh in Hi.
Qed.

(** C6: [get_predictions] returns the rows of the store owned by the
    authenticated user, each as often as the store holds it and no other
    row, the later created first. *)
Theorem get_predictions_owned_latest_first (current_user : User.t) (db : Session) :
  get_predictions current_user db
    ≡ₚ filter (λ p, Prediction.user_id p = User.id current_user) (predictions db)
  ∧ (∀ p, p ∈ get_predictions current_user db
          ↔ p ∈ predictions db ∧ Prediction.user_id p = User.id current_user)
  ∧ StronglySorted (λ p q, Prediction.created_at q ≤ Prediction.created_at p)
      (get_predictions current_user db)
  ∧ list_predictions current_user db
    = Returned (PredictionResponse.from_attributes <$> get_predictions current_user db).
Proof.
  unfold get_predictions. split; [apply merge_sort_Permutation|].
  split; [|split; [|done]].
  - intros p. rewrite merge_sort_Permutation, list_elem_of_filter. tauto.
  - apply (StronglySorted_merge_sort created_at_desc).
Qed.

(** C4: [get_prediction] returns a record exactly when the store holds a
    prediction with the requested id whose owner is the authenticated user,
    and the record it returns is such a row (the row itself when ids are
    unique); in every other case, whether the id is unknown or belongs to
    another user, it raises the one [NotFound] exception (status 404, the
    same detail). *)
Theorem get_prediction_owned_or_not_found
    (prediction_id : Z) (current_user : User.t) (db : Session) :
  (∀ p, get_prediction prediction_id current_user db = Returned p →
        p ∈ predictions db ∧ Prediction.id p = prediction_id
        ∧ Prediction.user_id p = User.id current_user)
  ∧ ((∃ p, get_prediction prediction_id current_user db = Returned p)
     ↔ ∃ p, p ∈ predictions db ∧ Prediction.id p = prediction_id
            ∧ Prediction.user_id p = User.id current_user)
  ∧ (get_prediction prediction_id current_user db = Raised NotFound
     ↔ ∀ p, p ∈ predictions db → Prediction.id p = prediction_id →
            Prediction.user_id p ≠ User.id current_user)
  ∧ (NoDup (Prediction.id <$> predictions db) →
     ∀ p, p ∈ predictions db → Prediction.id p = prediction_id →
          Prediction.user_id p = User.id current_user →
          get_prediction prediction_id current_user db = Returned p)
  ∧ status_code NotFound = 404.
Proof.
  unfold get_prediction.
  pose proof (query_first_Some (owned_with_id prediction_id current_user)
                (predictions db)) as HSome.
  pose proof (query_first_None (owned_with_id prediction_id current_user)
                (predictions db)) as HNone.
  unfold owned_with_id in HSome, HNone.
  destruct (query_first _ (predictions db)) as [q|].
  - destruct (HSome q eq_refl) as (Hin & Hid & Hown).
    split; [by intros p [= <-]|].
    split; [split; [intros _|intros _; by exists q]; by exists q|].
    split; [split; [discriminate|intros Hno; by destruct (Hno q)]|].
    split; [|done].
    intros Hnd p Hp Hpid Hpown. f_equal.
    apply (NoDup_fmap_same_key Prediction.id (predictions db)); congruence.
  - destruct HNone as [HN _]. specialize (HN eq_refl).
    split; [discriminate|].
    split; [split; [intros [p [=]]|]|].
    { intros (p & Hp & Hpid & Hpown). by destruct (HN p). }
    split; [split; [intros _ p Hp Hpid Hpown; by destruct (HN p)|done]|].
    split; [|done].
    intros _ p Hp Hpid Hpown. by destruct (HN p).
Qed.

Lemma get_prediction_owned_or_not_found_witness :
  get_prediction 2 bob sample_db
    = Returned (Prediction.mk 2 2 70 60 1 102000 310)
  ∧ (get_prediction 2 alice sample_db = Raised NotFound).
Proof.
  split.
  - destruct (get_prediction_owned_or_not_found 2 bob sample_db)
      as (_ & _ & _ & Hunique & _).
    apply Hunique.
    + apply (bool_decide_unpack _). reflexivity.
    + apply list_elem_of_further, list_elem_of_here.
    + reflexivity.
    + reflexivity.
  - destruct (get_prediction_owned_or_not_found 2 alice sample_db)
      as (_ & _ & Hnone & _).
    apply Hnone.
    intros p Hp Hid. repeat (apply elem_of_cons in Hp as [->|Hp]); try done.
    by apply elem_of_nil in Hp.
Defined.

(** ** [POST /register] *)

Section register.
Context `{Auth}.

Lemma register_checks_None user db :
  register_checks user db = None
  ↔ Forall (λ u, User.username u ≠ UserCreate.username user
                 ∧ User.email u ≠ UserCreate.email user) (users db).
Proof.
  unfold register_checks. rewrite Forall_forall.
  destruct (query_first (λ u, User.username u = _) _) as [u|] eqn:Eu.
  { apply query_first_Some in Eu as [Hin Hu]. split; [done|].
    intros Hall. by destruct (Hall u Hin). }
  destruct (query_first (λ u, User.email u = _) _) as [u|] eqn:Ee.
  { apply query_first_Some in Ee as [Hin Hu]. split; [done|].
    intros Hall. by destruct (Hall u Hin). }
  rewrite query_first_None in Eu, Ee. split; [|done].
  intros _ u Hin. split; [by apply Eu|by apply Ee].
Qed.

Lemma add_user_fresh db n now :
  Forall (λ u, User.username u ≠ User.new_username n
               ∧ User.email u ≠ User.new_email n) (users db) →
  add_user db n now =
  Ok (mkSession (users db ++ [User.stored n (next_id (User.id <$> users db)) now])
                (predictions db),
      User.stored n (next_id (User.id <$> users db)) now).
Proof.
  rewrite Forall_forall. intros Hall. unfold add_user.
  destruct (decide _) as [(u & Hin & Hu)%Exists_exists|_].
  { by destruct (Hall u Hin). }
  destruct (decide _) as [(u & Hin & Hu)%Exists_exists|_]; [|done].
  by destruct (Hall u Hin).
Qed.

Lemma add_user_duplicate db n now :
  Exists (λ u, User.username u = User.new_username n
               ∨ User.email u = User.new_email n) (users db) →
  ∃ column, add_user db n now = Raise (IntegrityError column).
Proof.
  intros (u & Hin & Hu)%Exists_exists. unfold add_user.
  destruct (decide _) as [_|Hno1]; [by eexists|].
  destruct (decide _) as [_|Hno2]; [by eexists|].
  rewrite Exists_exists in Hno1, Hno2.
  destruct Hu; [destruct Hno1|destruct Hno2]; eauto.
Qed.

(** On its own the handler never meets the constraint: what its look-ups
    let through, the insert accepts. *)
Lemma register_never_unhandled user salt now db e :
  (register user salt now db).2 ≠ Unhandled e.
Proof.
  unfold register, register_between.
  destruct (register_checks user db) as [x|] eqn:E; [done|].
  apply register_checks_None in E. unfold register_insert.
  by rewrite add_user_fresh.
Qed.

(** C2, as the handler has it: a username that the handler's look-up finds
    among the users ends the request in [DuplicateUsername]; an email that
    it finds, the username being free, ends it in [DuplicateEmail]; when
    the look-ups find nothing and the duplicate is met only by the store's
    uniqueness constraint at insert time, the [IntegrityError] leaves the
    handler as it is.  In all three cases no user row is inserted. *)
Theorem register_duplicate_outcomes
    (user : UserCreate.t) (salt : string) (now : Z) (seen db : Session) :
  (Exists (λ u, User.username u = UserCreate.username user) (users seen) →
     register_between user salt now seen db = (db, Raised DuplicateUsername))
  ∧ (Forall (λ u, User.username u ≠ UserCreate.username user) (users seen) →
     Exists (λ u, User.email u = UserCreate.email user) (users seen) →
     register_between user salt now seen db = (db, Raised DuplicateEmail))
  ∧ (Forall (λ u, User.username u ≠ UserCreate.username user
                  ∧ User.email u ≠ UserCreate.email user) (users seen) →
     Exists (λ u, User.username u = UserCreate.username user
                  ∨ User.email u = UserCreate.email user) (users db) →
     ∃ column,
       register_between user salt now seen db
         = (db, Unhandled (IntegrityError column)))
  ∧ (∀ e, (register user salt now db).2 ≠ Unhandled e).
Proof.
  unfold register_between, register_checks.
  split; [|split; [|split]].
  - intros Hu%Exists_exists.
    apply (query_first_is_Some (λ u, User.username u = _)) in Hu as [u ->].
    done.
  - rewrite Forall_forall. intros Hno He%Exists_exists.
    apply (query_first_None (λ u, User.username u = _)) in Hno as ->.
    apply (query_first_is_Some (λ u, User.email u = _)) in He as [u ->].
    done.
  - intros Hfree Hdup. apply register_checks_None in Hfree.
    unfold register_checks in Hfree. rewrite Hfree.
    unfold register_insert.
    destruct (add_user_duplicate db
                (User.mk_new (UserCreate.username user) (UserCreate.email user)
                   (hash_password salt (UserCreate.password user))) now Hdup)
      as [column ->].
    by exists column.
  - intros e. apply register_never_unhandled.
Qed.
End register.

Lemma register_duplicate_outcomes_witness :
  register_between (H := toy_auth)
      (UserCreate.mk "alice" "other@example.com" "hunter22") "salt" 100
      two_users two_users
    = (two_users, Raised DuplicateUsername)
  ∧ register_between (H := toy_auth)
      (UserCreate.mk "alicia" "alice@example.com" "hunter22") "salt" 100
      two_users two_users
    = (two_users, Raised DuplicateEmail).
Proof.
  split.
  - destruct (register_duplicate_outcomes (H := toy_auth)
                (UserCreate.mk "alice" "other@example.com" "hunter22") "salt" 100
                two_users two_users) as (Husername & _).
    apply Husername. apply Exists_cons_hd. reflexivity.
  - destruct (register_duplicate_outcomes (H := toy_auth)
                (UserCreate.mk "alicia" "alice@example.com" "hunter22") "salt" 100
                two_users two_users) as (_ & Hemail & _).
    apply Hemail.
    + repeat constructor; discriminate.
    + apply Exists_cons_hd. reflexivity.
Defined.

(** C2, as stated, fails: carol's look-ups run on a store without her, a
    concurrent registration of the same username commits, and her insert
    meets the uniqueness constraint.  The request does not end in
    [DuplicateUsername]. *)
Lemma register_constraint_violation_not_mapped :
  register_between (H := toy_auth) carol "salt" 100 two_users
      (mkSession [alice; bob; User.mk 3 "carol" "c@example.org" "x$y" 99] [])
    = (mkSession [alice; bob; User.mk 3 "carol" "c@example.org" "x$y" 99] [],
       Unhandled (IntegrityError "users.username"))
  ∧ (register_between (H := toy_auth) carol "salt" 100 two_users
       (mkSession [alice; bob; User.mk 3 "carol" "c@example.org" "x$y" 99] [])).2
    ≠ Raised DuplicateUsername.
Proof. split; [reflexivity|discriminate]. Qed.

Example register_twice :
  (register (H := toy_auth) carol "salt" 100 two_users).2
    = Returned (User.mk 3 "carol" "carol@example.com" "salt$s3cret!" 100)
  ∧ (register (H := toy_auth) carol "pepper" 200
       (register (H := toy_auth) carol "salt" 100 two_users).1).2
    = Raised DuplicateUsername
  ∧ (register (H := toy_auth)
       (UserCreate.mk "dave" "carol@example.com" "hunter22") "pepper" 200
       (register (H := toy_auth) carol "salt" 100 two_users).1).2
    = Raised DuplicateEmail.
Proof. repeat split; reflexivity. Qed.

(** ** [POST /login] and tokens *)

Section login.
Context `{Auth}.

Lemma authenticate_user_unknown db username password :
  Forall (λ u, User.username u ≠ username) (users db) →
  authenticate_user db username password = None.
Proof.
  rewrite Forall_forall. intros Hno. unfold authenticate_user.
  by apply (query_first_None (λ u, User.username u = _)) in Hno as ->.
Qed.

Lemma authenticate_user_wrong_password db username password :
  Forall (λ u, User.username u = username →
               verify_password password (User.hashed_password u) = false)
         (users db) →
  authenticate_user db username password = None.
Proof.
  rewrite Forall_forall. intros Hbad. unfold authenticate_user.
  destruct (query_first _ _) as [u|] eqn:E; [|done].
  apply query_first_Some in E as [Hin Hu]. by rewrite (Hbad u Hin Hu).
Qed.

(** C5: a login with a username that exists and a password that does not
    verify, and a login with a username that does not exist, end in the
    same outcome, the one [AuthenticationFailed] exception (status 401,
    the same detail and headers), whatever the stores and the instants of
    the two requests. *)
Theorem login_failures_are_identical
    (db1 db2 : Session) (now1 now2 : Z)
    (username1 password1 username2 password2 : string) :
  Exists (λ u, User.username u = username1) (users db1) →
  Forall (λ u, User.username u = username1 →
               verify_password password1 (User.hashed_password u) = false)
         (users db1) →
  Forall (λ u, User.username u ≠ username2) (users db2) →
  login username1 password1 now1 db1 = Raised AuthenticationFailed
  ∧ login username2 password2 now2 db2 = Raised AuthenticationFailed
  ∧ login username1 password1 now1 db1 = login username2 password2 now2 db2.
Proof.
  intros _ Hbad Hno. unfold login.
  rewrite (authenticate_user_wrong_password _ _ _ Hbad).
  by rewrite (authenticate_user_unknown _ _ _ Hno).
Qed.

Lemma authenticate_user_Some db username password user :
  authenticate_user db username password = Some user →
  user ∈ users db ∧ User.username user = username
  ∧ verify_password password (User.hashed_password user) = true.
Proof.
  unfold authenticate_user.
  destruct (query_first _ _) as [u|] eqn:E; [|done].
  apply query_first_Some in E as [Hin Hu].
  destruct (verify_password _ _) eqn:Hv; [|done].
  by intros [= <-].
Qed.

Lemma verify_issued_token sub expires_delta issued_at t :
  verify_token (create_access_token sub expires_delta issued_at) t
  = if decide (t < issued_at + expires_delta) then Some sub else None.
Proof.
  unfold verify_token, create_access_token. simpl. by rewrite decide_True.
Qed.

(** C7: a token issued for [username] with absolute expiry instant
    [T = issued_at + expires_delta] verifies to [username] at every instant
    before [T] and is rejected at [T] and at every later instant.  So does
    the token [login] hands out, whose expiry is thirty minutes after the
    request. *)
Theorem token_accepted_strictly_before_expiry
    (username : string) (expires_delta issued_at t : Z) :
  JWT.exp (create_access_token username expires_delta issued_at)
    = issued_at + expires_delta
  ∧ (t < issued_at + expires_delta →
     verify_token (create_access_token username expires_delta issued_at) t
       = Some username)
  ∧ (issued_at + expires_delta ≤ t →
     verify_token (create_access_token username expires_delta issued_at) t
       = None)
  ∧ (∀ db password tok,
       login username password issued_at db = Returned tok →
       JWT.exp (Token.access_token tok) = issued_at + 1800
       ∧ Token.token_type tok = "bearer"
       ∧ (t < issued_at + 1800 →
          verify_token (Token.access_token tok) t = Some username)
       ∧ (issued_at + 1800 ≤ t →
          verify_token (Token.access_token tok) t = None)).
Proof.
  split; [done|].
  split; [intros Ht; rewrite verify_issued_token; by rewrite decide_True|].
  split; [intros Ht; rewrite verify_issued_token; by rewrite decide_False by lia|].
  intros db password tok. unfold login.
  destruct (authenticate_user db username password) as [user|] eqn:E; [|done].
  apply authenticate_user_Some in E as (_ & -> & _).
  intros [= <-]. simpl. rewrite verify_issued_token.
  change (timedelta_minutes config.ACCESS_TOKEN_EXPIRE_MINUTES) with 1800.
  split; [done|]. split; [done|].
  split; intros Ht; [by rewrite decide_True|by rewrite decide_False by lia].
Qed.
End login.

Lemma login_failures_are_identical_witness :
  login (H := toy_auth) "alice" "wrong-password" 100 two_users
    = Raised AuthenticationFailed
  ∧ login (H := toy_auth) "mallory" "wrong-password" 200 two_users
    = Raised AuthenticationFailed
  ∧ login (H := toy_auth) "alice" "wrong-password" 100 two_users
    = login (H := toy_auth) "mallory" "wrong-password" 200 two_users.
Proof.
  apply (login_failures_are_identical (H := toy_auth) two_users two_users 100 200
           "alice" "wrong-password" "mallory" "wrong-password").
  - apply Exists_cons_hd. reflexivity.
  - repeat constructor.
  - repeat constructor; discriminate.
Defined.

Lemma token_accepted_strictly_before_expiry_witness :
  verify_token (H := toy_auth) (create_access_token (H := toy_auth) "alice" 1800 100) 1899
    = Some "alice"
  ∧ verify_token (H := toy_auth) (create_access_token (H := toy_auth) "alice" 1800 100) 1900
    = None.
Proof.
  split.
  - destruct (token_accepted_strictly_before_expiry (H := toy_auth)
                "alice" 1800 100 1899) as (_ & Hbefore & _).
    apply Hbefore. reflexivity.
  - destruct (token_accepted_strictly_before_expiry (H := toy_auth)
                "alice" 1800 100 1900) as (_ & _ & Hafter & _).
    apply Hafter. discriminate.
Defined.

Example login_succeeds_with_the_password :
  login (H := toy_auth) "alice" "hash-a" 100 two_users
    = Returned (Token.mk
        (JWT.mk "alice" 1900
           "your-secret-key-change-this-in-production-make-it-long-and-random.alice.1900")
        "bearer").
Proof. vm_compute. reflexivity. Qed.

Example token_at_the_boundary :
  verify_token (H := toy_auth) (create_access_token (H := toy_auth) "alice" 1800 100) 1899
    = Some "alice"
  ∧ verify_token (H := toy_auth) (create_access_token (H := toy_auth) "alice" 1800 100) 1900
    = None
  ∧ verify_token (H := toy_auth) (JWT.mk "alice" 5000 "forged") 1000 = None.
Proof. repeat split; vm_compute; reflexivity. Qed.

(** ** What the responses show of a user *)

Lemma predict_salary_rehash f model input_data current_user now db :
  (predict_salary model input_data (rehash_user f current_user) now (rehash f db)).2
  = (predict_salary model input_data current_user now db).2.
Proof.
  destruct model as [model|]; [|done].
  rewrite !predict_salary_loaded. by destruct (model_output model input_data).
Qed.

(** C9: a registration whose username and email are both new returns the
    public user record: the id the store assigned (one no other user has),
    the username and the email as given, and the creation time.  The
    response is the same whatever the password, the salt and the hasher; and
    the responses of [/me], [/predict], [/predictions] and
    [/predictions/{id}] are the same whatever password hashes the store
    holds; and what a successful [/login] returns is settled by the
    username of the authenticated user and the instant of the request. *)
Theorem register_returns_public_record
    (auth : Auth) (user : UserCreate.t) (salt : string) (now : Z) (db : Session) :
  Forall (λ u, User.username u ≠ UserCreate.username user
               ∧ User.email u ≠ UserCreate.email user) (users db) →
  post_register (H := auth) user salt now db
    = (mkSession
         (users db ++ [User.mk (next_id (User.id <$> users db))
                         (UserCreate.username user) (UserCreate.email user)
                         (hash_password salt (UserCreate.password user)) now])
         (predictions db),
       Returned (UserResponse.mk (next_id (User.id <$> users db))
                   (UserCreate.username user) (UserCreate.email user) now))
  ∧ (next_id (User.id <$> users db) ∉ User.id <$> users db)
  ∧ (∀ (auth' : Auth) (password' salt' : string),
       (post_register (H := auth')
          (UserCreate.mk (UserCreate.username user) (UserCreate.email user) password')
          salt' now db).2
       = (post_register (H := auth) user salt now db).2)
  ∧ (∀ f current_user, get_me (rehash_user f current_user) = get_me current_user)
  ∧ (∀ f model body current_user t,
       (post_predict model body (rehash_user f current_user) t (rehash f db)).2
       = (post_predict model body current_user t db).2)
  ∧ (∀ f current_user,
       list_predictions (rehash_user f current_user) (rehash f db)
       = list_predictions current_user db)
  ∧ (∀ f prediction_id current_user,
       get_prediction_route prediction_id (rehash_user f current_user) (rehash f db)
       = get_prediction_route prediction_id current_user db)
  ∧ (∀ db1 db2 username1 password1 username2 password2 t user1 user2,
       authenticate_user (H := auth) db1 username1 password1 = Some user1 →
       authenticate_user (H := auth) db2 username2 password2 = Some user2 →
       User.username user1 = User.username user2 →
       login (H := auth) username1 password1 t db1
       = login (H := auth) username2 password2 t db2).
Proof.
  destruct user as [username email password]. simpl. intros Hnew.
  assert (∀ (a : Auth) password' salt',
    post_register (H := a) (UserCreate.mk username email password') salt' now db
    = (mkSession
         (users db ++ [User.mk (next_id (User.id <$> users db)) username email
                         (hash_password salt' password') now])
         (predictions db),
       Returned (UserResponse.mk (next_id (User.id <$> users db))
                   username email now)))
    as Hreg.
  { intros a password' salt'.
    unfold post_register, register, register_between.
    assert (register_checks (UserCreate.mk username email password') db = None)
      as -> by (by apply register_checks_None).
    unfold register_insert. by rewrite add_user_fresh. }
  split; [|split; [|split; [|split; [|split; [|split; [|split]]]]]].
  - apply Hreg.
  - apply next_id_fresh.
  - intros auth' password' salt'. by rewrite !Hreg.
  - done.
  - intros f model body current_user t. unfold post_predict.
    destruct (PredictionInput.validate body) as [loc|input_data]; [done|].
    pose proof (predict_salary_rehash f model input_data current_user t db) as E.
    destruct (predict_salary model input_data (rehash_user f current_user) t
                (rehash f db)) as [db1 o1],
             (predict_salary model input_data current_user t db) as [db2 o2].
    simpl in *. by subst.
  - done.
  - done.
  - intros db1 db2 username1 password1 username2 password2 t user1 user2 E1 E2 Hu.
    unfold login. by rewrite E1, E2, Hu.
Qed.

Lemma register_returns_public_record_witness :
  post_register (H := toy_auth) carol "salt" 100 two_users
    = (mkSession [alice; bob;
                  User.mk 3 "carol" "carol@example.com" "salt$s3cret!" 100] [],
       Returned (UserResponse.mk 3 "carol" "carol@example.com" 100)).
Proof.
  refine (proj1 (register_returns_public_record toy_auth carol "salt" 100
                   two_users _)).
  repeat constructor; discriminate.
Defined.

(** * Further properties of the handlers *)

(** ** A prediction, once made *)

(** What a successful [predict_salary] leaves behind. *)
Lemma predict_salary_Returned model input_data current_user now db db' row :
  predict_salary model input_data current_user now db = (db', Returned row) →
  db' = mkSession (users db) (predictions db ++ [row])
  ∧ Prediction.id row = next_id (Prediction.id <$> predictions db)
  ∧ Prediction.user_id row = User.id current_user
  ∧ Prediction.created_at row = now.
Proof.
  destruct model as [model|]; [|discriminate].
  rewrite predict_salary_loaded.
  destruct (model_output model input_data); [|discriminate].
  by intros [= <- <-].
Qed.

(** The outcomes [predict_salary] can end in. *)
Lemma predict_salary_outcomes model input_data current_user now db :
  (∃ row, (predict_salary model input_data current_user now db).2 = Returned row)
  ∨ (model = None
     ∧ predict_salary model input_data current_user now db
       = (db, Raised ModelUnavailable))
  ∨ (∃ e, model ≠ None
          ∧ predict_salary model input_data current_user now db
            = (db, Raised (PredictionError e))).
Proof.
  destruct model as [model|]; [|by right; left].
  rewrite predict_salary_loaded.
  destruct (model_output model input_data) as [y|e].
  - left. by eexists.
  - right; right. by exists e.
Qed.

Lemma query_first_snoc {A} (P : A → Prop) `{∀ x, Decision (P x)} table x :
  query_first P (table ++ [x]) =
  match query_first P table with
  | Some y => Some y
  | None => if decide (P x) then Some x else None
  end.
Proof.
  unfold query_first. rewrite filter_app.
  destruct (filter P table) as [|y rest]; [|done].
  simpl. rewrite filter_cons, filter_nil. by destruct (decide (P x)).
Qed.

Lemma query_first_fresh_id (Q : Prediction.t → Prop) `{∀ p, Decision (Q p)}
    (table : list Prediction.t) :
  query_first (λ p, Prediction.id p = next_id (Prediction.id <$> table) ∧ Q p)
              table = None.
Proof.
  apply query_first_None. intros p Hin [Hid _].
  apply (next_id_fresh (Prediction.id <$> table)).
  rewrite <- Hid. by apply list_elem_of_fmap_2.
Qed.

(** X1: a record returned by [predict_salary] can be fetched at once under
    its id by the user who made it, and by nobody else. *)
Theorem predicted_record_is_fetched_by_its_owner_only
    (model : option Model) (input_data : PredictionInput.t)
    (current_user : User.t) (now : Z) (db db' : Session) (row : Prediction.t) :
  predict_salary model input_data current_user now db = (db', Returned row) →
  get_prediction (Prediction.id row) current_user db' = Returned row
  ∧ (∀ other, User.id other ≠ User.id current_user →
       get_prediction (Prediction.id row) other db' = Raised NotFound).
Proof.
  intros (-> & Hid & Hown & _)%predict_salary_Returned.
  unfold get_prediction. simpl. split.
  - rewrite query_first_snoc, Hid, query_first_fresh_id, <- Hid.
    by rewrite decide_True.
  - intros other Hother.
    rewrite query_first_snoc, Hid, query_first_fresh_id, <- Hid.
    rewrite decide_False; [done|]. intros [_ Hu]. congruence.
Qed.

Lemma predicted_record_is_fetched_by_its_owner_only_witness :
  get_prediction 5 alice
    (mkSession [alice; bob]
       (predictions sample_db ++ [Prediction.mk 5 1 85 90 3 136000 600]))
  = Returned (Prediction.mk 5 1 85 90 3 136000 600)
  ∧ get_prediction 5 bob
      (mkSession [alice; bob]
         (predictions sample_db ++ [Prediction.mk 5 1 85 90 3 136000 600]))
    = Raised NotFound.
Proof.
  destruct (predicted_record_is_fetched_by_its_owner_only (Some linear_model)
              input_85_90_3 alice 600 sample_db
              (mkSession [alice; bob]
                 (predictions sample_db ++ [Prediction.mk 5 1 85 90 3 136000 600]))
              (Prediction.mk 5 1 85 90 3 136000 600) eq_refl) as [Hown Hother].
  split; [exact Hown|]. apply (Hother bob). discriminate.
Defined.

Lemma get_predictions_snoc_owned current_user db row :
  Prediction.user_id row = User.id current_user →
  get_predictions current_user (mkSession (users db) (predictions db ++ [row]))
    ≡ₚ row :: get_predictions current_user db.
Proof.
  intros Hown. unfold get_predictions. simpl.
  rewrite !merge_sort_Permutation, filter_app, filter_cons_True, filter_nil by done.
  by rewrite <- Permutation_cons_append.
Qed.

Lemma get_predictions_snoc_other other db row :
  Prediction.user_id row ≠ User.id other →
  get_predictions other (mkSession (users db) (predictions db ++ [row]))
    = get_predictions other db.
Proof.
  intros Hown. unfold get_predictions. simpl.
  by rewrite filter_app, filter_cons_False, filter_nil, app_nil_r.
Qed.

Lemma get_predictions_sorted current_user db :
  StronglySorted created_at_desc (get_predictions current_user db).
Proof. apply (StronglySorted_merge_sort created_at_desc). Qed.

(** X2: after a successful [predict_salary] the caller's list is the list
    from before with the new record added; the list of every other user is
    what it was; and when the new record is later than all the caller's
    earlier ones, it comes first. *)
Theorem new_prediction_joins_its_owner_list
    (model : option Model) (input_data : PredictionInput.t)
    (current_user : User.t) (now : Z) (db db' : Session) (row : Prediction.t) :
  predict_salary model input_data current_user now db = (db', Returned row) →
  get_predictions current_user db' ≡ₚ row :: get_predictions current_user db
  ∧ (∀ other, User.id other ≠ User.id current_user →
       get_predictions other db' = get_predictions other db)
  ∧ (Forall (λ p, Prediction.created_at p < now) (get_predictions current_user db) →
     head (get_predictions current_user db') = Some row).
Proof.
  intros (-> & _ & Hown & Hnow)%predict_salary_Returned.
  pose proof (get_predictions_snoc_owned current_user db row Hown) as Hperm.
  split; [done|]. split.
  - intros other Hother. apply get_predictions_snoc_other. congruence.
  - rewrite Forall_forall. intros Hearlier.
    pose proof (get_predictions_sorted current_user
                  (mkSession (users db) (predictions db ++ [row]))) as Hsorted.
    destruct (get_predictions current_user
                (mkSession (users db) (predictions db ++ [row]))) as [|h rest].
    { by apply Permutation_nil_cons in Hperm. }
    simpl. f_equal.
    assert (h ∈ row :: get_predictions current_user db) as Hh
      by (rewrite <- Hperm; left).
    apply elem_of_cons in Hh as [->|Hh]; [done|].
    assert (row ∈ h :: rest) as Hrow by (rewrite Hperm; left).
    apply elem_of_cons in Hrow as [->|Hrow]; [done|].
    apply StronglySorted_cons in Hsorted as [Hall _].
    rewrite Forall_forall in Hall. specialize (Hall row Hrow).
    unfold created_at_desc in Hall. specialize (Hearlier h Hh). lia.
Qed.

Lemma new_prediction_joins_its_owner_list_witness :
  head (get_predictions alice
          (mkSession [alice; bob]
             (predictions sample_db ++ [Prediction.mk 5 1 85 90 3 136000 600])))
  = Some (Prediction.mk 5 1 85 90 3 136000 600)
  ∧ get_predictions bob
      (mkSession [alice; bob]
         (predictions sample_db ++ [Prediction.mk 5 1 85 90 3 136000 600]))
    = get_predictions bob sample_db.
Proof.
  destruct (new_prediction_joins_its_owner_list (Some linear_model)
              input_85_90_3 alice 600 sample_db
              (mkSession [alice; bob]
                 (predictions sample_db ++ [Prediction.mk 5 1 85 90 3 136000 600]))
              (Prediction.mk 5 1 85 90 3 136000 600) eq_refl)
    as (_ & Hother & Hfirst).
  split.
  - apply Hfirst. repeat constructor.
  - apply (Hother bob). discriminate.
Defined.

(** X3: whatever [predict_salary] ends in, it leaves the users as they were
    and keeps every earlier prediction: what an id resolved to before, it
    resolves to afterwards, what a user's list held, it still holds, and the
    table has grown by one row at most. *)
Theorem predict_keeps_earlier_records
    (model : option Model) (input_data : PredictionInput.t)
    (current_user : User.t) (now : Z) (db : Session) :
  users (predict_salary model input_data current_user now db).1 = users db
  ∧ (∀ prediction_id user p,
       get_prediction prediction_id user db = Returned p →
       get_prediction prediction_id user
         (predict_salary model input_data current_user now db).1 = Returned p)
  ∧ (∀ user p,
       p ∈ get_predictions user db →
       p ∈ get_predictions user
             (predict_salary model input_data current_user now db).1)
  ∧ (∃ new : list Prediction.t,
       predictions (predict_salary model input_data current_user now db).1
         = (predictions db ++ new)%list
       ∧ (length new ≤ 1)%nat).
Proof.
  destruct (predict_salary model input_data current_user now db) as [db' o] eqn:E.
  destruct (predict_salary_outcomes model input_data current_user now db)
    as [[row Hrow]|[[_ Hnone]|(e & _ & He)]]; rewrite E in *; simpl in *.
  - subst o. apply predict_salary_Returned in E as (-> & _ & _ & _). simpl.
    split; [done|]. split; [|split].
    + intros prediction_id user p. unfold get_prediction. simpl.
      rewrite query_first_snoc. by destruct (query_first _ (predictions db)).
    + intros user p. unfold get_predictions. simpl.
      rewrite !merge_sort_Permutation, filter_app, elem_of_app. by left.
    + exists [row]. split; [done|simpl; lia].
  - injection Hnone as -> _. split; [done|]. split; [done|]. split; [done|].
    exists []. split; [by rewrite app_nil_r|simpl; lia].
  - injection He as -> _. split; [done|]. split; [done|]. split; [done|].
    exists []. split; [by rewrite app_nil_r|simpl; lia].
Qed.

(** X4: a request that does not end in a returned record writes nothing.
    [predict_salary] either returns the one row it appended, or leaves the
    store as it was; so does [register]. *)
Theorem failed_requests_write_nothing
    (auth : Auth) (model : option Model) (input_data : PredictionInput.t)
    (user : UserCreate.t) (salt : string)
    (current_user : User.t) (now : Z) (db : Session) :
  ((∃ row, predict_salary model input_data current_user now db
           = (mkSession (users db) (predictions db ++ [row]), Returned row))
   ∨ ((predict_salary model input_data current_user now db).1 = db
      ∧ ∀ row, (predict_salary model input_data current_user now db).2
               ≠ Returned row))
  ∧ ((∃ row, register (H := auth) user salt now db
             = (mkSession (users db ++ [row]) (predictions db), Returned row))
     ∨ ((register (H := auth) user salt now db).1 = db
        ∧ ∀ row, (register (H := auth) user salt now db).2 ≠ Returned row)).
Proof.
  split.
  - destruct (predict_salary_outcomes model input_data current_user now db)
      as [[row Hrow]|[[_ ->]|(e & _ & ->)]]; [|by right..].
    left. exists row.
    destruct (predict_salary model input_data current_user now db) as [db' o] eqn:E.
    simpl in Hrow. subst o.
    by apply predict_salary_Returned in E as (-> & _).
  - unfold register, register_between.
    destruct (register_checks user db); [by right|].
    unfold register_insert. destruct (add_user db _ now) as [[db' row]|e] eqn:E;
      [|by right].
    left. exists row. unfold add_user in E.
    repeat destruct (decide _); try discriminate. by injection E as <- <-.
Qed.

(** ** The list and the single record agree *)

Lemma get_predictions_elem_of current_user db p :
  p ∈ get_predictions current_user db
  ↔ p ∈ predictions db ∧ Prediction.user_id p = User.id current_user.
Proof.
  unfold get_predictions. rewrite merge_sort_Permutation, list_elem_of_filter. tauto.
Qed.

(** X5: in a store whose prediction ids are unique, the records a user
    finds in [get_predictions] are exactly those [get_prediction] returns to
    that user under their ids. *)
Theorem listed_records_are_the_fetchable_ones
    (current_user : User.t) (db : Session) (p : Prediction.t) :
  NoDup (Prediction.id <$> predictions db) →
  p ∈ get_predictions current_user db
  ↔ get_prediction (Prediction.id p) current_user db = Returned p.
Proof.
  intros Hnd. rewrite get_predictions_elem_of. unfold get_prediction.
  destruct (query_first _ (predictions db)) as [q|] eqn:E.
  - apply query_first_Some in E as (Hq & Hid & Hown). split.
    + intros [Hp _]. f_equal.
      by apply (NoDup_fmap_same_key Prediction.id (predictions db)).
    + by intros [= ->].
  - rewrite query_first_None in E. split; [|done].
    intros [Hp Hown]. by destruct (E p Hp).
Qed.

Lemma listed_records_are_the_fetchable_ones_witness :
  Prediction.mk 3 1 50 50 0 75000 500 ∈ get_predictions alice sample_db
  ↔ get_prediction 3 alice sample_db = Returned (Prediction.mk 3 1 50 50 0 75000 500).
Proof.
  apply (listed_records_are_the_fetchable_ones alice sample_db
           (Prediction.mk 3 1 50 50 0 75000 500)).
  apply (bool_decide_unpack _). reflexivity.
Defined.

Lemma StronglySorted_strict (table : list Prediction.t) :
  NoDup (Prediction.created_at <$> table) →
  StronglySorted created_at_desc table →
  StronglySorted (λ p q, Prediction.created_at q < Prediction.created_at p) table.
Proof.
  induction table as [|p table IH]; [constructor|].
  rewrite fmap_cons, NoDup_cons, StronglySorted_cons.
  intros [Hp Hnd] [Hall Hsorted]. constructor; [by apply IH|].
  rewrite Forall_forall in Hall |- *. intros q Hq.
  specialize (Hall q Hq). unfold created_at_desc in Hall.
  assert (Prediction.created_at p ≠ Prediction.created_at q); [|lia].
  intros Heq. apply Hp. rewrite Heq. by apply list_elem_of_fmap_2.
Qed.

(** X6: when the creation times of a user's predictions are pairwise
    distinct, [get_predictions] lists them strictly latest first, and the
    list does not depend on the order of the rows in the table. *)
Theorem distinct_times_give_one_strict_order
    (current_user : User.t) (db1 db2 : Session) :
  NoDup (Prediction.created_at
           <$> filter (λ p, Prediction.user_id p = User.id current_user)
                      (predictions db1)) →
  predictions db1 ≡ₚ predictions db2 →
  StronglySorted (λ p q, Prediction.created_at q < Prediction.created_at p)
    (get_predictions current_user db1)
  ∧ get_predictions current_user db1 = get_predictions current_user db2.
Proof.
  intros Hnd Hperm.
  assert (get_predictions current_user db1
            ≡ₚ filter (λ p, Prediction.user_id p = User.id current_user)
                      (predictions db1)) as H1
    by apply merge_sort_Permutation.
  assert (get_predictions current_user db2
            ≡ₚ filter (λ p, Prediction.user_id p = User.id current_user)
                      (predictions db1)) as H2.
  { unfold get_predictions. by rewrite merge_sort_Permutation, Hperm. }
  split.
  - apply StronglySorted_strict; [by rewrite H1|apply get_predictions_sorted].
  - apply (StronglySorted_unique_strong created_at_desc);
      [|apply get_predictions_sorted..|by rewrite H1, H2].
    intros p q Hp Hq Hpq Hqp. unfold created_at_desc in *.
    rewrite H1 in Hp. rewrite H2 in Hq.
    apply (NoDup_fmap_same_key Prediction.created_at
             (filter (λ p, Prediction.user_id p = User.id current_user)
                     (predictions db1))); [done..|lia].
Qed.

Lemma distinct_times_give_one_strict_order_witness :
  StronglySorted (λ p q, Prediction.created_at q < Prediction.created_at p)
    (get_predictions alice sample_db)
  ∧ get_predictions alice sample_db
    = get_predictions alice (mkSession [alice; bob] (reverse (predictions sample_db))).
Proof.
  apply (distinct_times_give_one_strict_order alice sample_db
           (mkSession [alice; bob] (reverse (predictions sample_db)))).
  - apply (bool_decide_unpack _). reflexivity.
  - symmetry. apply reverse_Permutation.
Defined.

(** ** The model at start-up *)

(** X7: [predict_salary] ends in [ModelUnavailable] exactly when the model
    artifact was absent or failed to load at start-up; with a model loaded it
    never does. *)
Theorem model_unavailable_exactly_without_model
    (artifact : option (result Model)) (input_data : PredictionInput.t)
    (current_user : User.t) (now : Z) (db : Session) :
  (predict_salary (startup_model artifact) input_data current_user now db).2
    = Raised ModelUnavailable
  ↔ artifact = None ∨ ∃ e, artifact = Some (Raise e).
Proof.
  destruct artifact as [[model|e]|]; unfold startup_model, load_model.
  - rewrite predict_salary_loaded. split.
    + destruct (model_output model input_data); simpl; [discriminate|].
      intros [=].
    + intros [|[e ?]]; discriminate.
  - split; [|done]. intros _. right. by exists e.
  - split; [|done]. intros _. by left.
Qed.

(** ** Registration, once done *)

Section registered.
Context `{Auth}.

(** What a successful [register] leaves behind. *)
Lemma register_Returned user salt now db db' row :
  register user salt now db = (db', Returned row) →
  db' = mkSession (users db ++ [row]) (predictions db)
  ∧ User.username row = UserCreate.username user
  ∧ User.email row = UserCreate.email user
  ∧ User.id row = next_id (User.id <$> users db)
  ∧ Forall (λ u, User.username u ≠ UserCreate.username user
                 ∧ User.email u ≠ UserCreate.email user) (users db).
Proof.
  unfold register, register_between.
  destruct (register_checks user db) eqn:E; [discriminate|].
  apply register_checks_None in E. unfold register_insert.
  rewrite add_user_fresh by done. by intros [= <- <-].
Qed.

(** X8: once a registration has succeeded, a later registration with the
    same username ends in [DuplicateUsername], and one with another, unused
    username and the same email ends in [DuplicateEmail]; neither changes
    the store. *)
Theorem registered_name_and_email_are_taken
    (user user2 : UserCreate.t) (salt salt2 : string) (now now2 : Z)
    (db db' : Session) (row : User.t) :
  register user salt now db = (db', Returned row) →
  (UserCreate.username user2 = UserCreate.username user →
     register user2 salt2 now2 db' = (db', Raised DuplicateUsername))
  ∧ (UserCreate.email user2 = UserCreate.email user →
     Forall (λ u, User.username u ≠ UserCreate.username user2) (users db') →
     register user2 salt2 now2 db' = (db', Raised DuplicateEmail)).
Proof.
  intros (-> & Hname & Hemail & _)%register_Returned.
  unfold register, register_between, register_checks. simpl. split.
  - intros Hsame.
    assert (is_Some (query_first (λ u, User.username u = UserCreate.username user2)
                       (users db ++ [row]))) as [u ->]; [|done].
    apply query_first_is_Some. exists row. split; [|congruence].
    apply elem_of_app. right. left.
  - intros Hsame Hfree. rewrite Forall_forall in Hfree.
    apply (query_first_None (λ u, User.username u = _)) in Hfree as ->.
    assert (is_Some (query_first (λ u, User.email u = UserCreate.email user2)
                       (users db ++ [row]))) as [u ->]; [|done].
    apply query_first_is_Some. exists row. split; [|congruence].
    apply elem_of_app. right. left.
Qed.

(** X9: [register] keeps usernames, emails and user ids free of duplicates,
    and never touches the predictions. *)
Theorem register_keeps_users_unique
    (user : UserCreate.t) (salt : string) (now : Z) (db : Session) :
  NoDup (User.username <$> users db) →
  NoDup (User.email <$> users db) →
  NoDup (User.id <$> users db) →
  NoDup (User.username <$> users (register user salt now db).1)
  ∧ NoDup (User.email <$> users (register user salt now db).1)
  ∧ NoDup (User.id <$> users (register user salt now db).1)
  ∧ predictions (register user salt now db).1 = predictions db.
Proof.
  intros Hnames Hemails Hids.
  destruct (register user salt now db) as [db' o] eqn:E.
  destruct o as [row|loc|e|e];
    [|unfold register, register_between, register_insert in E;
      destruct (register_checks user db);
        [|destruct (add_user db _ now) as [[??]|?]]; by simplify_eq..].
  apply register_Returned in E as (-> & Hname & Hemail & Hid & Hnew).
  rewrite Forall_forall in Hnew. simpl. rewrite !fmap_app, !NoDup_app. simpl.
  repeat split; try done; try apply NoDup_singleton.
  - intros n (u & Hn & Hu)%list_elem_of_fmap Hrow%list_elem_of_singleton.
    destruct (Hnew u Hu) as [Hfree _]. congruence.
  - intros m (u & Hm & Hu)%list_elem_of_fmap Hrow%list_elem_of_singleton.
    destruct (Hnew u Hu) as [_ Hfree]. congruence.
  - intros i Hi Hrow%list_elem_of_singleton. rewrite Hrow, Hid in Hi.
    by apply next_id_fresh in Hi.
Qed.


End registered.

Lemma registered_name_and_email_are_taken_witness :
  register (H := toy_auth) (UserCreate.mk "carol" "other@example.com" "hunter22")
      "pepper" 200
      (mkSession [alice; bob;
                  User.mk 3 "carol" "carol@example.com" "salt$s3cret!" 100] [])
  = (mkSession [alice; bob;
                User.mk 3 "carol" "carol@example.com" "salt$s3cret!" 100] [],
     Raised DuplicateUsername)
  ∧ register (H := toy_auth) (UserCreate.mk "dave" "carol@example.com" "hunter22")
      "pepper" 200
      (mkSession [alice; bob;
                  User.mk 3 "carol" "carol@example.com" "salt$s3cret!" 100] [])
    = (mkSession [alice; bob;
                  User.mk 3 "carol" "carol@example.com" "salt$s3cret!" 100] [],
       Raised DuplicateEmail).
Proof.
  split.
  - apply (registered_name_and_email_are_taken (H := toy_auth) carol
             (UserCreate.mk "carol" "other@example.com" "hunter22")
             "salt" "pepper" 100 200 two_users _ _ eq_refl).
    reflexivity.
  - apply (registered_name_and_email_are_taken (H := toy_auth) carol
             (UserCreate.mk "dave" "carol@example.com" "hunter22")
             "salt" "pepper" 100 200 two_users _ _ eq_refl).
    + reflexivity.
    + repeat constructor; discriminate.
Defined.

Lemma register_keeps_users_unique_witness :
  NoDup (User.username <$> users (register (H := toy_auth) carol "salt" 100 two_users).1)
  ∧ NoDup (User.email <$> users (register (H := toy_auth) carol "salt" 100 two_users).1)
  ∧ NoDup (User.id <$> users (register (H := toy_auth) carol "salt" 100 two_users).1)
  ∧ predictions (register (H := toy_auth) carol "salt" 100 two_users).1 = [].
Proof.
  apply (register_keeps_users_unique (H := toy_auth) carol "salt" 100 two_users);
    apply (bool_decide_unpack _); reflexivity.
Defined.


Example registration_length_bounds :
  UserCreate_validate toy_EmailStr (UserCreate.mk "abc" "a@b.co" "123456")
    = inr (UserCreate.mk "abc" "a@b.co" "123456")
  ∧ UserCreate_validate toy_EmailStr (UserCreate.mk "ab" "a@b.co" "123456")
    = inl ["username"]
  ∧ UserCreate_validate toy_EmailStr
      (UserCreate.mk "abcdefghijklmnopqrstuvwxyzabcdefghijklmnopqrstuvwxy"
                     "a@b.co" "123456")
    = inl ["username"]
  ∧ UserCreate_validate toy_EmailStr (UserCreate.mk "abc" "not-an-address" "12345")
    = inl ["email"; "password"].
Proof. repeat split; reflexivity. Qed.

(** ** What reaches the store through [POST /predict] *)

Lemma predict_salary_Returned_inputs model input_data current_user now db db' row :
  predict_salary model input_data current_user now db = (db', Returned row) →
  Prediction.test_score row = PredictionInput.test_score input_data
  ∧ Prediction.interview_score row = PredictionInput.interview_score input_data
  ∧ Prediction.years_experience row = PredictionInput.years_experience input_data.
Proof.
  destruct model as [model|]; [|discriminate].
  rewrite predict_salary_loaded.
  destruct (model_output model input_data); [|discriminate].
  by intros [= <- <-].
Qed.

Lemma float_between_0_100_finite x :
  float_between 0 100 x → x ≠ nan ∧ x ≠ infinity ∧ x ≠ neg_infinity.
Proof.
  intros [Hlo Hhi]. repeat split; intros ->;
    [discriminate Hlo|discriminate Hhi|discriminate Hlo].
Qed.

Lemma float_between_0_50_finite x :
  float_between 0 50 x → x ≠ nan ∧ x ≠ infinity ∧ x ≠ neg_infinity.
Proof.
  intros [Hlo Hhi]. repeat split; intros ->;
    [discriminate Hlo|discriminate Hhi|discriminate Hlo].
Qed.

(** X11: every record that [POST /predict] returns is a row of the store it
    leaves, and its three inputs lie within the bounds of [PredictionInput]:
    [test_score] and [interview_score] in [0, 100], [years_experience] in
    [0, 50]; none of them is a NaN or an infinity. *)
Theorem returned_predictions_have_inputs_in_bounds
    (model : option Model) (body : PredictionInput.t) (current_user : User.t)
    (now : Z) (db db' : Session) (r : PredictionResponse.t) :
  post_predict model body current_user now db = (db', Returned r) →
  (∃ row, row ∈ predictions db' ∧ r = PredictionResponse.from_attributes row)
  ∧ float_between 0 100 (PredictionResponse.test_score r)
  ∧ float_between 0 100 (PredictionResponse.interview_score r)
  ∧ float_between 0 50 (PredictionResponse.years_experience r)
  ∧ Forall (λ x, x ≠ nan ∧ x ≠ infinity ∧ x ≠ neg_infinity)
      [PredictionResponse.test_score r;
       PredictionResponse.interview_score r;
       PredictionResponse.years_experience r].
Proof.
  unfold post_predict, PredictionInput.validate.
  destruct (PredictionInput.errors body) eqn:Hvalid; [|discriminate].
  apply errors_nil_iff in Hvalid as (Hts & His & Hye).
  destruct (predict_salary model body current_user now db) as [db1 o] eqn:E.
  destruct o as [row| | |]; simpl; [|discriminate..].
  intros [= <- <-].
  pose proof (predict_salary_Returned_inputs _ _ _ _ _ _ _ E) as (Ets & Eis & Eye).
  apply predict_salary_Returned in E as (-> & _).
  simpl. rewrite Ets, Eis, Eye. split.
  { exists row. split; [|done]. apply elem_of_app. right. left. }
  split; [done|]. split; [done|]. split; [done|].
  repeat apply Forall_cons_2; [..|apply Forall_nil_2];
    first [by apply float_between_0_100_finite
          |by apply float_between_0_50_finite].
Qed.

Lemma returned_predictions_have_inputs_in_bounds_witness :
  float_between 0 100 85 ∧ float_between 0 100 90 ∧ float_between 0 50 3.
Proof.
  destruct (returned_predictions_have_inputs_in_bounds (Some linear_model)
              input_85_90_3 alice 100 two_users
              (mkSession [alice; bob] [Prediction.mk 1 1 85 90 3 136000 100])
              (PredictionResponse.mk 1 85 90 3 136000 100) eq_refl)
    as (_ & Hts & His & Hye & _).
  exact (conj Hts (conj His Hye)).
Defined.

(** X12: [predict_salary] keeps the ids of the predictions free of
    duplicates, and the record it returns has an id no earlier record
    has. *)
Theorem predict_keeps_prediction_ids_unique
    (model : option Model) (input_data : PredictionInput.t)
    (current_user : User.t) (now : Z) (db : Session) :
  NoDup (Prediction.id <$> predictions db) →
  NoDup (Prediction.id
           <$> predictions (predict_salary model input_data current_user now db).1)
  ∧ (∀ row, (predict_salary model input_data current_user now db).2 = Returned row →
            ∀ p, p ∈ predictions db → Prediction.id p ≠ Prediction.id row).
Proof.
  intros Hnd.
  destruct (predict_salary model input_data current_user now db) as [db' o] eqn:E.
  destruct (predict_salary_outcomes model input_data current_user now db)
    as [[row Hrow]|[[_ Hnone]|(e & _ & He)]]; rewrite E in *; simpl in *.
  - subst o. apply predict_salary_Returned in E as (-> & Hid & _). simpl.
    split.
    + rewrite fmap_app, NoDup_app. split; [done|].
      split; [|apply NoDup_singleton].
      intros i Hi Hrow%list_elem_of_singleton. rewrite Hrow, Hid in Hi.
      by apply next_id_fresh in Hi.
    + intros row' [= <-] p Hp Heq.
      apply (next_id_fresh (Prediction.id <$> predictions db)).
      rewrite <- Hid, <- Heq. by apply list_elem_of_fmap_2.
  - injection Hnone as -> ->. by split.
  - injection He as -> ->. by split.
Qed.

Lemma predict_keeps_prediction_ids_unique_witness :
  NoDup (Prediction.id
           <$> predictions (predict_salary (Some linear_model) input_85_90_3
                              alice 600 sample_db).1).
Proof.
  refine (proj1 (predict_keeps_prediction_ids_unique (Some linear_model)
                   input_85_90_3 alice 600 sample_db _)).
  apply (bool_decide_unpack _). reflexivity.
Defined.
